(** * Undo/redo history of [HomeComponent] (src/app/home/home.component.ts)

    A shallow embedding of the component's fields ([myForm], [history],
    [currentIndex]), of the notifier it talks to, and of its methods
    [ngOnInit], [saveState], [undo], [redo], [canUndo] and [canRedo],
    followed by the properties of the history buffer. *)

From Stdlib Require Import ZArith List String Bool Lia.
Import ListNotations.
Open Scope Z_scope.

(** ** Data model *)

(** [undoRedoFormValue]: the value of the form group, one [string | null]
    per control. *)
Record undoRedoFormValue : Type := mkValue {
  name : option string;
  email : option string;
  country : option string
}.

(** The three controls of [IUndoRedoForm]. *)
Inductive Control : Type := CName | CEmail | CCountry.

(** The reactive form group as far as the component uses it: its current
    [value], and whether the [valueChanges] subscription installed by
    [ngOnInit] (whose callback is [saveState]) is in place. *)
Record FormGroup : Type := mkGroup {
  value : undoRedoFormValue;
  subscribed : bool
}.

(** The mutable fields of the component. [myForm] is declared
    [myForm!: FormGroup], so it is undefined until [ngOnInit] assigns it:
    [None] stands for that. [toasts] is the log of the messages handed to
    [ToastrService.success], oldest first. *)
Record HomeComponent : Type := mkComponent {
  myForm : option FormGroup;
  history : list undoRedoFormValue;
  currentIndex : Z;
  toasts : list string
}.

(** What a method call leaves behind: it returns, or an exception escapes
    it. Both carry the component as the call left it, since assignments
    made before a throw stay. *)
Inductive Outcome : Type :=
| Returned (c : HomeComponent)
| Threw (c : HomeComponent).

Definition state_of (o : Outcome) : HomeComponent :=
  match o with
  | Returned c => c
  | Threw c => c
  end.

Definition andThen (o : Outcome) (k : HomeComponent -> Outcome) : Outcome :=
  match o with
  | Returned c => k c
  | Threw c => Threw c
  end.

Notation "c <- o ;; k" := (andThen o (fun c => k))
  (at level 61, o at next level, right associativity).

(** ** JavaScript array primitives *)

Section JsArray.

Context {A : Type}.

(** [a.length] as a number. *)
Definition len (a : list A) : Z := Z.of_nat (List.length a).

(** [a[i]] for an integer [i]: [None] is [undefined], the result outside
    [0 .. a.length-1]. *)
Definition at_index (a : list A) (i : Z) : option A :=
  if i <? 0 then None else nth_error a (Z.to_nat i).

(** The array left by [a.splice(start)]: a negative [start] counts from
    the end and is clamped at 0, a [start] beyond the end is clamped to
    the length; everything from there on is removed. *)
Definition splice (a : list A) (start : Z) : list A :=
  let from := if start <? 0 then Z.max (len a + start) 0
              else Z.min start (len a) in
  firstn (Z.to_nat from) a.

(** The array left by [a.push(x)]. *)
Definition push (a : list A) (x : A) : list A := a ++ [x].

End JsArray.

(** ** Field updates *)

Definition with_myForm (f : option FormGroup) (c : HomeComponent) : HomeComponent :=
  mkComponent f (history c) (currentIndex c) (toasts c).

Definition with_history (h : list undoRedoFormValue) (c : HomeComponent) : HomeComponent :=
  mkComponent (myForm c) h (currentIndex c) (toasts c).

Definition with_currentIndex (i : Z) (c : HomeComponent) : HomeComponent :=
  mkComponent (myForm c) (history c) i (toasts c).

(** [this.toastr.success(msg)]. *)
Definition toastr_success (msg : string) (c : HomeComponent) : Outcome :=
  Returned (mkComponent (myForm c) (history c) (currentIndex c) (toasts c ++ [msg])).

(** ** Methods of the component *)

(** [canUndo()]: [this.currentIndex > 0]. *)
Definition canUndo (c : HomeComponent) : bool := 0 <? currentIndex c.

(** [canRedo()]: [this.currentIndex < this.history.length - 1]. *)
Definition canRedo (c : HomeComponent) : bool :=
  currentIndex c <? len (history c) - 1.

(** [saveState()]. Reading [this.myForm.value] throws while [myForm] is
    undefined, before anything is assigned. *)
Definition saveState (c : HomeComponent) : Outcome :=
  match myForm c with
  | None => Threw c
  | Some form =>
      let currentState := value form in
      let c1 :=
        if currentIndex c <? len (history c) - 1
        then with_history (splice (history c) (currentIndex c + 1)) c
        else c in
      let c2 := with_history (push (history c1) currentState) c1 in
      Returned (with_currentIndex (len (history c2) - 1) c2)
  end.

(** [this.myForm.setValue(v, { emitEvent })]. The group rejects a value
    that lacks one of its controls, so [undefined] ([None]) makes it throw,
    as does calling it on an undefined [myForm]. With [emitEvent] the
    group's [valueChanges] fires and the subscriber, [saveState], runs. *)
Definition setValue (v : option undoRedoFormValue) (emitEvent : bool)
  (c : HomeComponent) : Outcome :=
  match myForm c, v with
  | Some form, Some x =>
      let c1 := with_myForm (Some (mkGroup x (subscribed form))) c in
      if emitEvent && subscribed form then saveState c1 else Returned c1
  | _, _ => Threw c
  end.

(** [undo()]. *)
Definition undo (c : HomeComponent) : Outcome :=
  if canUndo c then
    let c1 := with_currentIndex (currentIndex c - 1) c in
    c2 <- setValue (at_index (history c1) (currentIndex c1)) false c1 ;;
    toastr_success "⤶ Undo action had been done" c2
  else Returned c.

(** [redo()]. *)
Definition redo (c : HomeComponent) : Outcome :=
  if canRedo c then
    let c1 := with_currentIndex (currentIndex c + 1) c in
    c2 <- setValue (at_index (history c1) (currentIndex c1)) false c1 ;;
    toastr_success "↪️ Redo action had been done" c2
  else Returned c.

(** The two messages handed to the notifier. *)
Definition undo_message : string := "⤶ Undo action had been done".
Definition redo_message : string := "↪️ Redo action had been done".

(** The value every control starts with in [ngOnInit]: the empty string. *)
Definition emptyValue : undoRedoFormValue :=
  mkValue (Some ""%string) (Some ""%string) (Some ""%string).

(** [ngOnInit()]: builds the group, saves the initial state, then
    subscribes [saveState] to [valueChanges]. *)
Definition ngOnInit (c : HomeComponent) : Outcome :=
  let c1 := with_myForm (Some (mkGroup emptyValue false)) c in
  c2 <- saveState c1 ;;
  match myForm c2 with
  | Some form => Returned (with_myForm (Some (mkGroup (value form) true)) c2)
  | None => Threw c2
  end.

(** The component as its field initialisers leave it. *)
Definition constructed : HomeComponent :=
  mkComponent None [] (-1) [].

(** The component once Angular has run [ngOnInit] on it. *)
Definition initialized : HomeComponent := state_of (ngOnInit constructed).

(** ** User edits *)

(** The form value after one control received a new value. *)
Definition patch (k : Control) (x : option string) (v : undoRedoFormValue)
  : undoRedoFormValue :=
  match k with
  | CName => mkValue x (email v) (country v)
  | CEmail => mkValue (name v) x (country v)
  | CCountry => mkValue (name v) (email v) x
  end.

(** An edit of control [k] in the template: the control takes the value
    [x], the group's value follows, and [valueChanges] fires. *)
Definition edit (k : Control) (x : option string) (c : HomeComponent) : Outcome :=
  match myForm c with
  | None => Threw c
  | Some form => setValue (Some (patch k x (value form))) true c
  end.

(** ** Runs of the component *)

Inductive Call : Type :=
| CallSaveState
| CallUndo
| CallRedo
| UserEdit (k : Control) (x : option string).

Definition exec (op : Call) (c : HomeComponent) : Outcome :=
  match op with
  | CallSaveState => saveState c
  | CallUndo => undo c
  | CallRedo => redo c
  | UserEdit k x => edit k x c
  end.

(** The component after a sequence of calls, whatever each one's outcome. *)
Fixpoint run (ops : list Call) (c : HomeComponent) : HomeComponent :=
  match ops with
  | [] => c
  | op :: rest => run rest (state_of (exec op c))
  end.

(** States the initialized component can get into. *)
Inductive reachable : HomeComponent -> Prop :=
| reach_init : reachable initialized
| reach_call c op : reachable c -> reachable (state_of (exec op c)).

(** States of the whole life of a component: from construction, through
    the single [ngOnInit] that Angular performs, and on. *)
Inductive lifecycle : HomeComponent -> Prop :=
| life_new : lifecycle constructed
| life_init c : lifecycle c -> myForm c = None -> lifecycle (state_of (ngOnInit c))
| life_call c op : lifecycle c -> lifecycle (state_of (exec op c)).

(** The spec's data model: the cursor lies in [-1 .. history.length-1],
    and a history that holds a snapshot belongs to a component whose form
    has been built. *)
Record valid (c : HomeComponent) : Prop := mkValid {
  cursor_range : -1 <= currentIndex c <= len (history c) - 1;
  form_built : history c <> [] -> exists form, myForm c = Some form
}.

(** What holds of the component from [ngOnInit] on: the form is built and
    observed, the cursor is an index of the history, and the form shows
    the snapshot under the cursor. *)
Record settled (c : HomeComponent) : Prop := mkSettled {
  cursor_index : 0 <= currentIndex c <= len (history c) - 1;
  form_shown : exists form,
    myForm c = Some form /\ subscribed form = true /\
    at_index (history c) (currentIndex c) = Some (value form)
}.

(** The scenario of the spec: S0 (empty), S1 (name A), S2 (name AB). *)
Definition S0 : undoRedoFormValue := emptyValue.
Definition S1 : undoRedoFormValue := patch CName (Some "A"%string) S0.
Definition S2 : undoRedoFormValue := patch CName (Some "AB"%string) S1.
Definition S3 : undoRedoFormValue := patch CName (Some "AX"%string) S1.

Definition after_two_edits : HomeComponent :=
  run [UserEdit CName (Some "A"%string); UserEdit CName (Some "AB"%string)]
      initialized.

Definition after_undo : HomeComponent := state_of (undo after_two_edits).

Definition after_new_edit : HomeComponent :=
  state_of (edit CName (Some "AX"%string) after_undo).

(** ** Repeated calls and runs of edits *)

(** The calls made by a list of edits of the template, in order. *)
Definition edits_of (es : list (Control * option string)) : list Call :=
  map (fun e => UserEdit (fst e) (snd e)) es.

(** The successive values the form takes under a list of edits, starting
    from the value [v], which is not listed itself. *)
Fixpoint snapshots (v : undoRedoFormValue) (es : list (Control * option string))
  : list undoRedoFormValue :=
  match es with
  | [] => []
  | e :: rest =>
      let v' := patch (fst e) (snd e) v in
      v' :: snapshots v' rest
  end.

(** The value shown by the form, when the form is built. *)
Definition shown (c : HomeComponent) : option undoRedoFormValue :=
  match myForm c with
  | Some form => Some (value form)
  | None => None
  end.

(** ** Arrays *)

Section ArrayFacts.

Context {A : Type}.
Implicit Types (a : list A) (x : A) (i : Z).

Lemma len_nonneg a : 0 <= len a.
Proof. unfold len; lia. Qed.

Lemma len_push a x : len (push a x) = len a + 1.
Proof. unfold len, push. rewrite length_app. simpl. lia. Qed.

Lemma len_nil_iff a : len a = 0 <-> a = [].
Proof.
  unfold len. destruct a as [|y a]; simpl; split; intro H;
    try reflexivity; try discriminate; lia.
Qed.

Lemma at_index_some a i : 0 <= i < len a -> exists x, at_index a i = Some x.
Proof.
  intros [Hlo Hhi]. unfold at_index.
  destruct (Z.ltb_spec i 0) as [Hneg|_]; [lia|].
  destruct (nth_error a (Z.to_nat i)) as [x|] eqn:E.
  - now exists x.
  - apply nth_error_None in E. unfold len in Hhi. lia.
Qed.

Lemma at_index_inside a i x : at_index a i = Some x -> 0 <= i < len a.
Proof.
  unfold at_index. destruct (Z.ltb_spec i 0) as [|Hlo]; [discriminate|].
  intro E. assert (Hn : nth_error a (Z.to_nat i) <> None) by congruence.
  apply nth_error_Some in Hn. unfold len. lia.
Qed.

Lemma at_index_push_last a x : at_index (push a x) (len a) = Some x.
Proof.
  unfold at_index, push, len.
  destruct (Z.ltb_spec (Z.of_nat (List.length a)) 0) as [Hneg|_]; [lia|].
  rewrite Nat2Z.id, nth_error_app2 by lia.
  now rewrite Nat.sub_diag.
Qed.

Lemma at_index_push_old a x i : i < len a -> at_index (push a x) i = at_index a i.
Proof.
  intro Hi. unfold at_index, push.
  destruct (Z.ltb_spec i 0) as [|Hlo]; [reflexivity|].
  apply nth_error_app1. unfold len in Hi. lia.
Qed.

Lemma at_index_firstn a i (n : nat) :
  i < Z.of_nat n -> at_index (firstn n a) i = at_index a i.
Proof.
  intro Hi. unfold at_index.
  destruct (Z.ltb_spec i 0) as [|Hlo]; [reflexivity|].
  rewrite nth_error_firstn.
  destruct (Nat.ltb_spec (Z.to_nat i) n) as [_|Hge]; [reflexivity | lia].
Qed.

(** Under the test of [saveState], and also when the test fails, the
    history that [push] extends is the prefix up to the cursor. *)
Lemma splice_after_cursor a i :
  -1 <= i ->
  (if i <? len a - 1 then splice a (i + 1) else a) = firstn (Z.to_nat (i + 1)) a.
Proof.
  intro Hi. destruct (Z.ltb_spec i (len a - 1)) as [Hlt|Hge].
  - unfold splice. destruct (Z.ltb_spec (i + 1) 0) as [Hneg|_]; [lia|].
    now rewrite Z.min_l by lia.
  - symmetry. apply firstn_all2. unfold len in Hge. lia.
Qed.

Lemma len_firstn_cursor a i :
  -1 <= i <= len a - 1 -> len (firstn (Z.to_nat (i + 1)) a) = i + 1.
Proof.
  intros [Hlo Hhi]. unfold len in *. rewrite length_firstn. lia.
Qed.

End ArrayFacts.

(** ** The methods, one equation each *)

Lemma saveState_returns c form :
  myForm c = Some form ->
  let kept := if currentIndex c <? len (history c) - 1
              then splice (history c) (currentIndex c + 1)
              else history c in
  saveState c =
  Returned (mkComponent (Some form) (push kept (value form))
                        (len (push kept (value form)) - 1) (toasts c)).
Proof.
  intros Hform kept. unfold saveState. rewrite Hform. subst kept.
  destruct (currentIndex c <? len (history c) - 1);
    unfold with_currentIndex, with_history; cbn; rewrite ?Hform; reflexivity.
Qed.

Lemma saveState_built c form :
  myForm c = Some form -> -1 <= currentIndex c ->
  let kept := firstn (Z.to_nat (currentIndex c + 1)) (history c) in
  saveState c =
  Returned (mkComponent (Some form) (push kept (value form))
                        (len (push kept (value form)) - 1) (toasts c)).
Proof.
  intros Hform Hlo kept. rewrite (saveState_returns c form Hform).
  subst kept. now rewrite splice_after_cursor.
Qed.

Lemma undo_at_start c : canUndo c = false -> undo c = Returned c.
Proof. intro H. unfold undo. now rewrite H. Qed.

Lemma redo_at_end c : canRedo c = false -> redo c = Returned c.
Proof. intro H. unfold redo. now rewrite H. Qed.

Lemma undo_step c form x :
  canUndo c = true -> myForm c = Some form ->
  at_index (history c) (currentIndex c - 1) = Some x ->
  undo c =
  Returned (mkComponent (Some (mkGroup x (subscribed form))) (history c)
                        (currentIndex c - 1) (toasts c ++ [undo_message])).
Proof.
  intros Hcan Hform Hx. unfold undo. rewrite Hcan. cbn.
  rewrite Hx. unfold setValue. cbn. rewrite Hform. reflexivity.
Qed.

Lemma redo_step c form x :
  canRedo c = true -> myForm c = Some form ->
  at_index (history c) (currentIndex c + 1) = Some x ->
  redo c =
  Returned (mkComponent (Some (mkGroup x (subscribed form))) (history c)
                        (currentIndex c + 1) (toasts c ++ [redo_message])).
Proof.
  intros Hcan Hform Hx. unfold redo. rewrite Hcan. cbn.
  rewrite Hx. unfold setValue. cbn. rewrite Hform. reflexivity.
Qed.

Lemma canUndo_true c : canUndo c = true <-> 0 < currentIndex c.
Proof. unfold canUndo. apply Z.ltb_lt. Qed.

Lemma canUndo_false c : canUndo c = false <-> currentIndex c <= 0.
Proof. unfold canUndo. rewrite Z.ltb_ge. reflexivity. Qed.

Lemma canRedo_true c : canRedo c = true <-> currentIndex c < len (history c) - 1.
Proof. unfold canRedo. apply Z.ltb_lt. Qed.

Lemma canRedo_false c : canRedo c = false <-> currentIndex c >= len (history c) - 1.
Proof. unfold canRedo. rewrite Z.ltb_ge. lia. Qed.

(** In a valid state the guard of [undo] makes its lookup succeed on a
    built form. *)
Lemma undo_lookup c :
  valid c -> canUndo c = true ->
  exists form x, myForm c = Some form /\
                 at_index (history c) (currentIndex c - 1) = Some x.
Proof.
  intros [Hr Hb] Hcan. apply canUndo_true in Hcan.
  destruct Hb as [form Hform].
  { intro E. apply len_nil_iff in E. lia. }
  destruct (at_index_some (history c) (currentIndex c - 1)) as [x Hx]; [lia|].
  now exists form, x.
Qed.

Lemma redo_lookup c :
  valid c -> canRedo c = true ->
  exists form x, myForm c = Some form /\
                 at_index (history c) (currentIndex c + 1) = Some x.
Proof.
  intros [Hr Hb] Hcan. apply canRedo_true in Hcan.
  destruct Hb as [form Hform].
  { intro E. apply len_nil_iff in E. lia. }
  destruct (at_index_some (history c) (currentIndex c + 1)) as [x Hx]; [lia|].
  now exists form, x.
Qed.

(** ** The invariant of the running component *)

Lemma settled_valid c : settled c -> valid c.
Proof.
  intros [Hr (form & Hform & _)]. split; [lia|].
  intros _. now exists form.
Qed.

Lemma constructed_valid : valid constructed.
Proof. split; cbn; [lia | congruence]. Qed.

Lemma initialized_eq :
  initialized = mkComponent (Some (mkGroup emptyValue true)) [emptyValue] 0 [].
Proof. reflexivity. Qed.

Lemma initialized_settled : settled initialized.
Proof.
  rewrite initialized_eq. split; cbn; [lia|].
  exists (mkGroup emptyValue true). repeat split.
Qed.

Lemma saveState_settled c form :
  myForm c = Some form -> subscribed form = true ->
  exists c', saveState c = Returned c' /\ settled c'.
Proof.
  intros Hform Hsub.
  eexists. split; [apply (saveState_returns c form Hform)|].
  set (kept := if currentIndex c <? _ then _ else _).
  pose proof (len_nonneg kept) as Hk.
  split; cbn.
  - rewrite len_push. lia.
  - exists form. repeat split; trivial.
    rewrite len_push.
    replace (len kept + 1 - 1) with (len kept) by lia.
    apply at_index_push_last.
Qed.

(** An edit of an observed form is [saveState] on the form's new value. *)
Lemma edit_observed k x c form :
  myForm c = Some form -> subscribed form = true ->
  edit k x c =
  saveState (with_myForm (Some (mkGroup (patch k x (value form)) true)) c).
Proof.
  intros Hform Hsub. unfold edit. rewrite Hform. unfold setValue.
  rewrite Hform, Hsub. reflexivity.
Qed.

Lemma edit_settled k x c :
  settled c -> exists c', edit k x c = Returned c' /\ settled c'.
Proof.
  intros [Hr (form & Hform & Hsub & Hshown)].
  rewrite (edit_observed k x c form Hform Hsub).
  now apply (saveState_settled _ (mkGroup (patch k x (value form)) true)).
Qed.

Lemma undo_settled c :
  settled c -> exists c', undo c = Returned c' /\ settled c'.
Proof.
  intros Hs. destruct (canUndo c) eqn:Hcan.
  - destruct (undo_lookup c (settled_valid c Hs) Hcan) as (form & x & Hform & Hx).
    rewrite (undo_step c form x Hcan Hform Hx).
    eexists. split; [reflexivity|].
    destruct Hs as [Hr (form0 & Hform0 & Hsub & _)].
    assert (form0 = form) by congruence. subst form0.
    apply canUndo_true in Hcan.
    split; cbn; [lia|]. eexists. repeat split; cbn; trivial.
  - rewrite (undo_at_start c Hcan). now exists c.
Qed.

Lemma redo_settled c :
  settled c -> exists c', redo c = Returned c' /\ settled c'.
Proof.
  intros Hs. destruct (canRedo c) eqn:Hcan.
  - destruct (redo_lookup c (settled_valid c Hs) Hcan) as (form & x & Hform & Hx).
    rewrite (redo_step c form x Hcan Hform Hx).
    eexists. split; [reflexivity|].
    destruct Hs as [Hr (form0 & Hform0 & Hsub & _)].
    assert (form0 = form) by congruence. subst form0.
    apply canRedo_true in Hcan.
    split; cbn; [lia|]. eexists. repeat split; cbn; trivial.
  - rewrite (redo_at_end c Hcan). now exists c.
Qed.

Lemma exec_settled op c :
  settled c -> exists c', exec op c = Returned c' /\ settled c'.
Proof.
  intro Hs. destruct op as [| | |k x]; cbn.
  - destruct Hs as [_ (form & Hform & Hsub & _)].
    now apply (saveState_settled c form).
  - now apply undo_settled.
  - now apply redo_settled.
  - now apply edit_settled.
Qed.

Lemma reachable_settled c : reachable c -> settled c.
Proof.
  induction 1 as [|c op _ IH].
  - exact initialized_settled.
  - destruct (exec_settled op c IH) as (c' & E & Hs). now rewrite E.
Qed.

Lemma reachable_valid c : reachable c -> valid c.
Proof. intro H. now apply settled_valid, reachable_settled. Qed.

Lemma run_reachable ops : forall c, reachable c -> reachable (run ops c).
Proof.
  induction ops as [|op rest IH]; intros c Hc; cbn; [assumption|].
  apply IH. now constructor.
Qed.

Lemma run_app ops1 ops2 c : run (ops1 ++ ops2) c = run ops2 (run ops1 c).
Proof.
  revert c. induction ops1 as [|op rest IH]; intro c; cbn; [reflexivity|].
  apply IH.
Qed.

(** Whenever [saveState] returns, the cursor is the last index. *)
Lemma saveState_cursor_last c c' :
  saveState c = Returned c' -> currentIndex c' = len (history c') - 1.
Proof.
  unfold saveState. destruct (myForm c) as [form|]; [|discriminate].
  intro E. injection E as <-. reflexivity.
Qed.

Lemma cursor_last_no_redo c :
  currentIndex c = len (history c) - 1 ->
  canRedo c = false /\ redo c = Returned c.
Proof.
  intro H. assert (Hno : canRedo c = false) by (apply canRedo_false; lia).
  split; [assumption | now apply redo_at_end].
Qed.

(** [saveState] on a built form whose cursor is at least -1: the history
    becomes the prefix up to the cursor followed by the form's value. *)
Lemma saveState_truncates c form :
  myForm c = Some form -> -1 <= currentIndex c ->
  exists c', saveState c = Returned c' /\
    history c' =
      firstn (Z.to_nat (currentIndex c + 1)) (history c) ++ [value form] /\
    currentIndex c' = len (history c') - 1 /\
    myForm c' = myForm c /\ toasts c' = toasts c.
Proof.
  intros Hform Hlo. eexists.
  split; [exact (saveState_built c form Hform Hlo)|].
  cbn. now rewrite Hform.
Qed.

(** ** The specification, claim by claim *)

(** C1. [saveState()] reads the form's current value, keeps of the history
    exactly the snapshots at indices 0..cursor (the future left by an
    earlier undo is dropped), appends the value read and moves the cursor
    to the new last index. It returns normally; the form and the notifier
    are left as they were, so only the history and the cursor change. *)
Theorem saveState_spec (c : HomeComponent) (form : FormGroup)
  (Hform : myForm c = Some form) (Hcursor : -1 <= currentIndex c) :
  exists c', saveState c = Returned c' /\
    history c' =
      firstn (Z.to_nat (currentIndex c + 1)) (history c) ++ [value form] /\
    currentIndex c' = len (history c') - 1 /\
    at_index (history c') (currentIndex c') = Some (value form) /\
    (forall i, i <= currentIndex c -> i < len (history c) ->
               at_index (history c') i = at_index (history c) i) /\
    myForm c' = myForm c /\ toasts c' = toasts c.
Proof.
  destruct (saveState_truncates c form Hform Hcursor)
    as (c' & E & Hh & Hc & Hf & Ht).
  exists c'. repeat split; trivial.
  - rewrite Hc, Hh. fold (push (firstn (Z.to_nat (currentIndex c + 1)) (history c))
                               (value form)).
    rewrite len_push.
    replace (len _ + 1 - 1)
      with (len (firstn (Z.to_nat (currentIndex c + 1)) (history c))) by lia.
    apply at_index_push_last.
  - intros i Hi Hin. rewrite Hh.
    fold (push (firstn (Z.to_nat (currentIndex c + 1)) (history c)) (value form)).
    destruct (Z.ltb_spec i 0) as [Hneg|Hpos].
    { unfold at_index. apply Z.ltb_lt in Hneg. now rewrite Hneg. }
    rewrite at_index_push_old.
    + apply at_index_firstn. lia.
    + unfold len in *. rewrite length_firstn. lia.
Qed.

Lemma saveState_spec_witness :
  myForm after_undo = Some (mkGroup S1 true) /\
  -1 <= currentIndex after_undo /\
  exists c', saveState after_undo = Returned c' /\
             history c' = [S0; S1; S1] /\ currentIndex c' = 2.
Proof.
  assert (Hform : myForm after_undo = Some (mkGroup S1 true)) by reflexivity.
  assert (Hcursor : -1 <= currentIndex after_undo)
    by (change (-1 <= 1); lia).
  split; [exact Hform | split; [exact Hcursor|]].
  destruct (saveState_spec after_undo _ Hform Hcursor)
    as (c' & E & Hh & Hc & _).
  exists c'. split; [exact E|]. split.
  - rewrite Hh. reflexivity.
  - rewrite Hc, Hh. reflexivity.
Defined.

(** C2. In a reachable state left by an undo (cursor below the last
    index), an edit drops every snapshot at an index above the cursor: the
    history becomes the prefix up to the cursor followed by the edited
    value, nothing is left to redo, and [redo()] is a no-op. The same holds
    of a direct [saveState()]. In the scenario of the spec, history
    [S0,S1,S2] with cursor 2, [undo()] then the edit name=AX leaves
    [S0,S1,S3], and [redo()] changes nothing. *)
Theorem edit_discards_future (c : HomeComponent)
  (Hreach : reachable c) (Hundone : currentIndex c < len (history c) - 1)
  (k : Control) (x : option string) :
  (exists form c', myForm c = Some form /\
     edit k x c = Returned c' /\
     history c' = firstn (Z.to_nat (currentIndex c + 1)) (history c)
                    ++ [patch k x (value form)] /\
     len (history c') = currentIndex c + 2 /\
     currentIndex c' = currentIndex c + 1 /\
     (forall i, currentIndex c + 1 < i -> at_index (history c') i = None) /\
     canRedo c' = false /\ redo c' = Returned c') /\
  (exists form c', myForm c = Some form /\
     saveState c = Returned c' /\
     history c' = firstn (Z.to_nat (currentIndex c + 1)) (history c)
                    ++ [value form] /\
     canRedo c' = false /\ redo c' = Returned c') /\
  (history after_two_edits = [S0; S1; S2] /\
   currentIndex after_two_edits = 2 /\
   undo after_two_edits = Returned after_undo /\
   currentIndex after_undo = 1 /\
   myForm after_undo = Some (mkGroup S1 true) /\
   edit CName (Some "AX"%string) after_undo = Returned after_new_edit /\
   history after_new_edit = [S0; S1; S3] /\
   canRedo after_new_edit = false /\
   redo after_new_edit = Returned after_new_edit).
Proof.
  pose proof (reachable_settled c Hreach) as [Hr (form & Hform & Hsub & _)].
  split; [|split].
  - set (c0 := with_myForm (Some (mkGroup (patch k x (value form)) true)) c).
    destruct (saveState_truncates c0 (mkGroup (patch k x (value form)) true))
      as (c' & E & Hh & Hc & _); [reflexivity | cbn; lia |].
    cbn in Hh.
    assert (Hlen : len (history c') = currentIndex c + 2).
    { rewrite Hh.
      fold (push (firstn (Z.to_nat (currentIndex c + 1)) (history c))
                 (patch k x (value form))).
      rewrite len_push, len_firstn_cursor; lia. }
    destruct (cursor_last_no_redo c' Hc) as [Hno Hredo].
    exists form, c'. repeat split; trivial.
    + now rewrite (edit_observed k x c form Hform Hsub).
    + lia.
    + intros i Hi. destruct (at_index (history c') i) as [y|] eqn:Ey; trivial.
      apply at_index_inside in Ey. lia.
  - destruct (saveState_truncates c form Hform) as (c' & E & Hh & Hc & _); [lia|].
    destruct (cursor_last_no_redo c' Hc) as [Hno Hredo].
    exists form, c'. repeat split; trivial.
  - repeat split.
Qed.

Lemma edit_discards_future_witness :
  reachable after_undo /\
  currentIndex after_undo < len (history after_undo) - 1 /\
  exists c', edit CName (Some "AX"%string) after_undo = Returned c' /\
             history c' = [S0; S1; S3] /\ redo c' = Returned c'.
Proof.
  assert (Hreach : reachable after_undo).
  { apply (reach_call _ CallUndo).
    apply (run_reachable
             [UserEdit CName (Some "A"%string); UserEdit CName (Some "AB"%string)]).
    exact reach_init. }
  assert (Hundone : currentIndex after_undo < len (history after_undo) - 1)
    by (change (1 < 3 - 1); lia).
  split; [exact Hreach | split; [exact Hundone|]].
  destruct (edit_discards_future after_undo Hreach Hundone
              CName (Some "AX"%string))
    as [(form & c' & Hform & E & Hh & _ & _ & _ & _ & Hredo) _].
  exists c'. split; [exact E|]. split; [|exact Hredo].
  rewrite Hh. cbn in Hform. injection Hform as <-. reflexivity.
Defined.

(** C3. [undo()] in a state of the data model (cursor in
    [-1 .. history.length-1], form built once the history holds a
    snapshot), which every reachable state is: unless the cursor is above 0 it returns with the history,
    the cursor, the form and the notifier all unchanged; when the cursor
    is above 0 it lowers the cursor by exactly one and writes the snapshot
    found at the new cursor into the form, the history staying as it was;
    in both cases it returns normally. *)
Theorem undo_spec (c : HomeComponent) (Hvalid : valid c) :
  (currentIndex c <= 0 -> undo c = Returned c) /\
  (0 < currentIndex c ->
   exists form x,
     myForm c = Some form /\
     at_index (history c) (currentIndex c - 1) = Some x /\
     undo c =
     Returned (mkComponent (Some (mkGroup x (subscribed form))) (history c)
                           (currentIndex c - 1)
                           (toasts c ++ [undo_message]))) /\
  (exists c', undo c = Returned c').
Proof.
  assert (Hstep : 0 < currentIndex c ->
    exists form x,
      myForm c = Some form /\
      at_index (history c) (currentIndex c - 1) = Some x /\
      undo c =
      Returned (mkComponent (Some (mkGroup x (subscribed form))) (history c)
                            (currentIndex c - 1)
                            (toasts c ++ [undo_message]))).
  { intro Hpos. apply canUndo_true in Hpos.
    destruct (undo_lookup c Hvalid Hpos) as (form & x & Hform & Hx).
    exists form, x. repeat split; trivial. now apply undo_step. }
  split; [|split].
  - intro Hle. now apply undo_at_start, canUndo_false.
  - exact Hstep.
  - destruct (Z.ltb_spec 0 (currentIndex c)) as [Hpos|Hle].
    + destruct (Hstep Hpos) as (form & x & _ & _ & E). eauto.
    + exists c. now apply undo_at_start, canUndo_false.
Qed.

Lemma after_two_edits_valid : valid after_two_edits.
Proof.
  split.
  - change (-1 <= 2 <= 3 - 1). lia.
  - intros _. eexists. reflexivity.
Defined.

Lemma undo_spec_witness :
  valid after_two_edits /\
  exists c', undo after_two_edits = Returned c' /\
             currentIndex c' = 1 /\ history c' = [S0; S1; S2] /\
             myForm c' = Some (mkGroup S1 true).
Proof.
  split; [exact after_two_edits_valid|].
  destruct (undo_spec after_two_edits after_two_edits_valid)
    as (_ & Hstep & _).
  destruct Hstep as (form & x & Hform & Hx & E).
  { change (0 < 2). lia. }
  eexists. split; [exact E|].
  cbn in Hform, Hx. injection Hform as <-. injection Hx as <-.
  repeat split.
Defined.

(** C4. [redo()] in a state of the data model, which every reachable
    state is: unless the cursor is below
    the last index it returns with the history, the cursor, the form and
    the notifier all unchanged; when the cursor is below the last index it
    raises the cursor by exactly one and writes the snapshot found at the
    new cursor into the form, the history staying as it was; in both cases
    it returns normally. *)
Theorem redo_spec (c : HomeComponent) (Hvalid : valid c) :
  (currentIndex c >= len (history c) - 1 -> redo c = Returned c) /\
  (currentIndex c < len (history c) - 1 ->
   exists form x,
     myForm c = Some form /\
     at_index (history c) (currentIndex c + 1) = Some x /\
     redo c =
     Returned (mkComponent (Some (mkGroup x (subscribed form))) (history c)
                           (currentIndex c + 1)
                           (toasts c ++ [redo_message]))) /\
  (exists c', redo c = Returned c').
Proof.
  assert (Hstep : currentIndex c < len (history c) - 1 ->
    exists form x,
      myForm c = Some form /\
      at_index (history c) (currentIndex c + 1) = Some x /\
      redo c =
      Returned (mkComponent (Some (mkGroup x (subscribed form))) (history c)
                            (currentIndex c + 1)
                            (toasts c ++ [redo_message]))).
  { intro Hlt. apply canRedo_true in Hlt.
    destruct (redo_lookup c Hvalid Hlt) as (form & x & Hform & Hx).
    exists form, x. repeat split; trivial. now apply redo_step. }
  split; [|split].
  - intro Hge. now apply redo_at_end, canRedo_false.
  - exact Hstep.
  - destruct (Z.ltb_spec (currentIndex c) (len (history c) - 1)) as [Hlt|Hge].
    + destruct (Hstep Hlt) as (form & x & _ & _ & E). eauto.
    + exists c. apply redo_at_end, canRedo_false. lia.
Qed.

Lemma after_undo_valid : valid after_undo.
Proof.
  split.
  - change (-1 <= 1 <= 3 - 1). lia.
  - intros _. eexists. reflexivity.
Defined.

Lemma redo_spec_witness :
  valid after_undo /\
  exists c', redo after_undo = Returned c' /\
             currentIndex c' = 2 /\ history c' = [S0; S1; S2] /\
             myForm c' = Some (mkGroup S2 true).
Proof.
  split; [exact after_undo_valid|].
  destruct (redo_spec after_undo after_undo_valid) as (_ & Hstep & _).
  destruct Hstep as (form & x & Hform & Hx & E).
  { change (1 < 3 - 1). lia. }
  eexists. split; [exact E|].
  cbn in Hform, Hx. injection Hform as <-. injection Hx as <-.
  repeat split.
Defined.

(** Before [ngOnInit] no call changes anything: [undo] and [redo] are at
    both ends of an empty history, [saveState] and an edit find no form. *)
Lemma exec_constructed op : state_of (exec op constructed) = constructed.
Proof. destruct op; reflexivity. Qed.

Lemma lifecycle_cases c : lifecycle c -> c = constructed \/ reachable c.
Proof.
  induction 1 as [|c _ IH Hnone|c op _ IH].
  - now left.
  - right. destruct IH as [->|Hreach].
    + exact reach_init.
    + destruct (reachable_settled c Hreach) as [_ (form & Hform & _)].
      congruence.
  - destruct IH as [->|Hreach].
    + left. apply exec_constructed.
    + right. now constructor.
Qed.

(** Every state of a component's life is a state of the data model. *)
Lemma lifecycle_valid c : lifecycle c -> valid c.
Proof.
  intro H. destruct (lifecycle_cases c H) as [->|Hreach].
  - exact constructed_valid.
  - now apply reachable_valid.
Qed.

(** C5. In every state reachable from the initialized component (one
    snapshot, cursor 0) by [saveState()], [undo()], [redo()] and edits, the
    history is non-empty and the cursor lies in [0 .. history.length-1], so
    it indexes a snapshot. Before initialization the cursor is -1, and over
    the whole life of a component the cursor is -1 only in that state. *)
Theorem cursor_indexes_history (c : HomeComponent) (Hreach : reachable c) :
  (0 <= currentIndex c <= len (history c) - 1 /\
   history c <> [] /\
   exists x, at_index (history c) (currentIndex c) = Some x) /\
  (history initialized = [emptyValue] /\ currentIndex initialized = 0) /\
  currentIndex constructed = -1 /\
  (forall c0, lifecycle c0 -> (currentIndex c0 = -1 <-> c0 = constructed)).
Proof.
  split; [|split; [|split]].
  - destruct (reachable_settled c Hreach) as [Hr (form & _ & _ & Hshown)].
    repeat split; try lia.
    + intro E. rewrite E in Hr. cbn in Hr. lia.
    + now exists (value form).
  - split; reflexivity.
  - reflexivity.
  - intros c0 Hlife. split.
    + intro Hminus. destruct (lifecycle_cases c0 Hlife) as [->|Hr0]; trivial.
      destruct (reachable_settled c0 Hr0) as [Hr _]. lia.
    + intros ->. reflexivity.
Qed.

Lemma after_undo_reachable : reachable after_undo.
Proof.
  apply (reach_call _ CallUndo).
  apply (run_reachable
           [UserEdit CName (Some "A"%string); UserEdit CName (Some "AB"%string)]).
  exact reach_init.
Defined.

Lemma cursor_indexes_history_witness :
  reachable after_undo /\
  0 <= currentIndex after_undo <= len (history after_undo) - 1 /\
  history after_undo <> [].
Proof.
  split; [exact after_undo_reachable|].
  destruct (cursor_indexes_history after_undo after_undo_reachable)
    as ((Hr & Hne & _) & _).
  split; [exact Hr | exact Hne].
Defined.

(** C6. After any run of the initialized component that ends with an edit
    (in particular after each edit of a sequence of edits, the subscription
    to [valueChanges] calling [saveState()]), history.length is cursor+1:
    the history is non-empty, the cursor is a valid index, one above where
    it was, the snapshot under it is the last one and is the value the
    edit gave the form, no snapshot lies above it, and nothing can be
    redone. *)
Theorem length_after_edit (ops : list Call) (k : Control) (x : option string) :
  let c := run ops initialized in
  let c' := run (ops ++ [UserEdit k x]) initialized in
  edit k x c = Returned c' /\
  len (history c') = currentIndex c' + 1 /\
  canRedo c' = false /\
  redo c' = Returned c' /\
  history c' <> [] /\
  0 <= currentIndex c' /\
  currentIndex c' = currentIndex c + 1 /\
  (exists v,
     shown c = Some v /\
     history c' =
       firstn (Z.to_nat (currentIndex c + 1)) (history c) ++ [patch k x v] /\
     at_index (history c') (currentIndex c') = Some (patch k x v) /\
     shown c' = Some (patch k x v)) /\
  (forall i, currentIndex c' < i -> at_index (history c') i = None).
Proof.
  cbn zeta. rewrite run_app. cbn [run exec].
  pose proof (run_reachable ops initialized reach_init) as Hreach.
  set (c := run ops initialized) in *.
  destruct (reachable_settled _ Hreach) as [Hr (form & Hform & Hsub & _)].
  rewrite (edit_observed k x c form Hform Hsub).
  set (v' := patch k x (value form)).
  set (c0 := with_myForm (Some (mkGroup v' true)) c).
  destruct (saveState_truncates c0 (mkGroup v' true))
    as (c' & E & Hh & Hc & Hf & _); [reflexivity | cbn; lia |].
  cbn [history currentIndex myForm value with_myForm c0] in Hh, Hf.
  rewrite E. cbn [state_of].
  assert (Hlen : len (history c') = currentIndex c + 2).
  { rewrite Hh.
    fold (push (firstn (Z.to_nat (currentIndex c + 1)) (history c)) v').
    rewrite len_push, len_firstn_cursor; lia. }
  destruct (cursor_last_no_redo c' Hc) as [Hno Hredo].
  assert (Hat : at_index (history c') (currentIndex c') = Some v').
  { rewrite Hc, Hlen, Hh.
    fold (push (firstn (Z.to_nat (currentIndex c + 1)) (history c)) v').
    replace (currentIndex c + 2 - 1)
      with (len (firstn (Z.to_nat (currentIndex c + 1)) (history c)))
      by (rewrite len_firstn_cursor; lia).
    apply at_index_push_last. }
  split; [reflexivity|]. split; [lia|]. split; [exact Hno|].
  split; [exact Hredo|]. split.
  { intro Hnil. rewrite Hnil in Hlen. cbn in Hlen. lia. }
  split; [lia|]. split; [lia|]. split.
  - exists (value form). split; [unfold shown; now rewrite Hform|].
    split; [exact Hh|]. split; [exact Hat|].
    unfold shown. now rewrite Hf.
  - intros i Hi. destruct (at_index (history c') i) as [y|] eqn:Ey; trivial.
    apply at_index_inside in Ey. lia.
Qed.

Lemma length_after_edit_witness :
  let c' := run ([UserEdit CName (Some "A"%string); CallUndo]
                   ++ [UserEdit CEmail (Some "e"%string)]) initialized in
  len (history c') = currentIndex c' + 1 /\
  history c' = [S0; patch CEmail (Some "e"%string) S0] /\
  currentIndex c' = 1 /\
  canRedo c' = false.
Proof.
  destruct (length_after_edit [UserEdit CName (Some "A"%string); CallUndo]
              CEmail (Some "e"%string))
    as (_ & Hlen & Hno & _ & _ & _ & Hcur & (v & Hv & Hh & _) & _).
  cbn zeta. split; [exact Hlen|]. split.
  - rewrite Hh. cbn in Hv. injection Hv as <-. reflexivity.
  - split; [rewrite Hcur; reflexivity | exact Hno].
Defined.

(** C7. In a reachable state where [canUndo()] holds, [undo()] followed by
    [redo()] brings the cursor back to its value before the undo and the
    form back to the snapshot it showed, the history being the same all
    along; in between, the form shows the snapshot one index lower. *)
Theorem undo_redo_roundtrip (c : HomeComponent)
  (Hreach : reachable c) (Hcan : canUndo c = true) :
  exists c1 c2,
    undo c = Returned c1 /\ redo c1 = Returned c2 /\
    currentIndex c1 = currentIndex c - 1 /\
    currentIndex c2 = currentIndex c /\
    myForm c2 = myForm c /\
    history c2 = history c /\
    toasts c2 = toasts c ++ [undo_message; redo_message].
Proof.
  pose proof (reachable_settled c Hreach) as [Hr (form & Hform & Hsub & Hshown)].
  destruct (undo_lookup c (reachable_valid c Hreach) Hcan)
    as (form' & x & Hform' & Hx).
  assert (form' = form) by congruence. subst form'.
  pose proof (undo_step c form x Hcan Hform Hx) as Hundo.
  set (c1 := mkComponent (Some (mkGroup x (subscribed form))) (history c)
                         (currentIndex c - 1) (toasts c ++ [undo_message])) in *.
  assert (Hcan1 : canRedo c1 = true) by (apply canRedo_true; cbn; lia).
  assert (Hx1 : at_index (history c1) (currentIndex c1 + 1) = Some (value form)).
  { cbn. now replace (currentIndex c - 1 + 1) with (currentIndex c) by lia. }
  pose proof (redo_step c1 _ _ Hcan1 eq_refl Hx1) as Hredo.
  eexists c1, _. split; [exact Hundo|]. split; [exact Hredo|].
  cbn. repeat split.
  - lia.
  - rewrite Hform. now destruct form.
  - now rewrite <- app_assoc.
Qed.

Lemma undo_redo_roundtrip_witness :
  reachable after_two_edits /\ canUndo after_two_edits = true /\
  exists c1 c2,
    undo after_two_edits = Returned c1 /\ redo c1 = Returned c2 /\
    currentIndex c2 = currentIndex after_two_edits /\
    myForm c2 = myForm after_two_edits.
Proof.
  assert (Hreach : reachable after_two_edits).
  { apply (run_reachable
             [UserEdit CName (Some "A"%string); UserEdit CName (Some "AB"%string)]).
    exact reach_init. }
  split; [exact Hreach|]. split; [reflexivity|].
  destruct (undo_redo_roundtrip after_two_edits Hreach eq_refl)
    as (c1 & c2 & E1 & E2 & _ & Hc & Hf & _).
  exists c1, c2. repeat split; assumption.
Defined.

(** C8. [canUndo()] and [canRedo()] only read the component (they are
    functions from it to a boolean) and depend on nothing but the cursor
    and history.length: in every state [canUndo()] is false exactly when
    cursor <= 0, and [canRedo()] is false exactly when
    cursor >= history.length-1. *)
Theorem can_checks (c : HomeComponent) :
  (canUndo c = false <-> currentIndex c <= 0) /\
  (canRedo c = false <-> currentIndex c >= len (history c) - 1) /\
  (forall c2, currentIndex c2 = currentIndex c ->
              len (history c2) = len (history c) ->
              canUndo c2 = canUndo c /\ canRedo c2 = canRedo c).
Proof.
  split; [apply canUndo_false|]. split; [apply canRedo_false|].
  intros c2 Hc Hl. unfold canUndo, canRedo. now rewrite Hc, Hl.
Qed.

Lemma can_checks_witness :
  (canUndo initialized = false <-> currentIndex initialized <= 0) /\
  (canRedo after_undo = false <->
   currentIndex after_undo >= len (history after_undo) - 1) /\
  canUndo (with_myForm None after_undo) = canUndo after_undo.
Proof.
  split; [apply (can_checks initialized)|].
  split; [apply (can_checks after_undo)|].
  apply (can_checks after_undo); reflexivity.
Defined.

(** C9. In every state, whether they return or throw, [undo()] and
    [redo()] leave the history as it was: no snapshot is appended, removed
    or overwritten, and history.length is the same. Writing a value into
    the form with emitEvent false never touches the history, whereas the
    same write with the event emitted would append a snapshot. *)
Theorem undo_redo_keep_history (c : HomeComponent) :
  history (state_of (undo c)) = history c /\
  history (state_of (redo c)) = history c /\
  len (history (state_of (undo c))) = len (history c) /\
  len (history (state_of (redo c))) = len (history c) /\
  (forall v, history (state_of (setValue v false c)) = history c) /\
  history (state_of (setValue (Some S1) true after_two_edits))
    = [S0; S1; S2; S1].
Proof.
  assert (Hset : forall v c0, history (state_of (setValue v false c0)) = history c0).
  { intros v c0. unfold setValue.
    destruct (myForm c0) as [form|], v as [y|]; reflexivity. }
  assert (Hundo : history (state_of (undo c)) = history c).
  { unfold undo. destruct (canUndo c); [|reflexivity].
    cbn zeta. specialize (Hset (at_index (history (with_currentIndex (currentIndex c - 1) c))
                                         (currentIndex (with_currentIndex (currentIndex c - 1) c)))
                               (with_currentIndex (currentIndex c - 1) c)).
    destruct (setValue _ false _) as [c2|c2]; cbn in *; exact Hset. }
  assert (Hredo : history (state_of (redo c)) = history c).
  { unfold redo. destruct (canRedo c); [|reflexivity].
    cbn zeta. specialize (Hset (at_index (history (with_currentIndex (currentIndex c + 1) c))
                                         (currentIndex (with_currentIndex (currentIndex c + 1) c)))
                               (with_currentIndex (currentIndex c + 1) c)).
    destruct (setValue _ false _) as [c2|c2]; cbn in *; exact Hset. }
  repeat split; trivial.
  - now rewrite Hundo.
  - now rewrite Hredo.
Qed.

(** C10. In every reachable state the lookups behind the guards are in
    bounds: under [canUndo()] the snapshot at cursor-1 exists, under
    [canRedo()] the snapshot at cursor+1 exists, so [setValue] never
    receives undefined, and both [undo()] and [redo()] return normally. *)
Theorem guarded_lookups_in_bounds (c : HomeComponent) (Hreach : reachable c) :
  (canUndo c = true ->
   0 <= currentIndex c - 1 < len (history c) /\
   exists x, at_index (history c) (currentIndex c - 1) = Some x) /\
  (canRedo c = true ->
   0 <= currentIndex c + 1 < len (history c) /\
   exists x, at_index (history c) (currentIndex c + 1) = Some x) /\
  (exists c', undo c = Returned c') /\
  (exists c', redo c = Returned c').
Proof.
  pose proof (reachable_valid c Hreach) as Hvalid.
  pose proof (reachable_settled c Hreach) as Hsettled.
  split; [|split; [|split]].
  - intro Hcan. destruct (undo_lookup c Hvalid Hcan) as (_ & x & _ & Hx).
    split; [now apply (at_index_inside _ _ x) | now exists x].
  - intro Hcan. destruct (redo_lookup c Hvalid Hcan) as (_ & x & _ & Hx).
    split; [now apply (at_index_inside _ _ x) | now exists x].
  - destruct (undo_settled c Hsettled) as (c' & E & _). now exists c'.
  - destruct (redo_settled c Hsettled) as (c' & E & _). now exists c'.
Qed.

Lemma guarded_lookups_in_bounds_witness :
  reachable after_undo /\
  canUndo after_undo = true /\ canRedo after_undo = true /\
  (exists x, at_index (history after_undo) (currentIndex after_undo - 1) = Some x) /\
  (exists x, at_index (history after_undo) (currentIndex after_undo + 1) = Some x).
Proof.
  split; [exact after_undo_reachable|].
  split; [reflexivity|]. split; [reflexivity|].
  destruct (guarded_lookups_in_bounds after_undo after_undo_reachable)
    as (Hu & Hr & _).
  split; [apply (Hu eq_refl) | apply (Hr eq_refl)].
Defined.

(** ** Further properties of the methods *)

(** *** One call on a settled component *)

Lemma settled_form c :
  settled c ->
  exists v, myForm c = Some (mkGroup v true) /\
            at_index (history c) (currentIndex c) = Some v.
Proof.
  intros [_ (form & Hform & Hsub & Hshown)].
  exists (value form). split; [|exact Hshown].
  rewrite Hform. destruct form as [v s]. cbn in *. now subst s.
Qed.

(** Two settled components with the same history and cursor show the
    same form. *)
Lemma settled_same_form c1 c2 :
  settled c1 -> settled c2 ->
  history c1 = history c2 -> currentIndex c1 = currentIndex c2 ->
  myForm c1 = myForm c2.
Proof.
  intros H1 H2 Hh Hc.
  destruct (settled_form c1 H1) as (v1 & F1 & L1).
  destruct (settled_form c2 H2) as (v2 & F2 & L2).
  rewrite Hh, Hc in L1. congruence.
Qed.

Lemma saveState_settled_eq c v :
  0 <= currentIndex c <= len (history c) - 1 ->
  myForm c = Some (mkGroup v true) ->
  saveState c =
  Returned (mkComponent (Some (mkGroup v true))
              (firstn (Z.to_nat (currentIndex c + 1)) (history c) ++ [v])
              (currentIndex c + 1) (toasts c)).
Proof.
  intros Hr Hform.
  rewrite (saveState_built c _ Hform) by lia. cbn [value].
  rewrite len_push, len_firstn_cursor by lia.
  unfold push. do 2 f_equal. lia.
Qed.

Lemma edit_settled_eq k x c v :
  0 <= currentIndex c <= len (history c) - 1 ->
  myForm c = Some (mkGroup v true) ->
  edit k x c =
  Returned (mkComponent (Some (mkGroup (patch k x v) true))
              (firstn (Z.to_nat (currentIndex c + 1)) (history c) ++ [patch k x v])
              (currentIndex c + 1) (toasts c)).
Proof.
  intros Hr Hform.
  rewrite (edit_observed k x c _ Hform eq_refl). cbn [value].
  now rewrite (saveState_settled_eq _ (patch k x v)).
Qed.

Lemma undo_settled_eq c :
  settled c -> 0 < currentIndex c ->
  exists x, at_index (history c) (currentIndex c - 1) = Some x /\
    undo c =
    Returned (mkComponent (Some (mkGroup x true)) (history c)
                          (currentIndex c - 1) (toasts c ++ [undo_message])).
Proof.
  intros Hs Hpos. apply canUndo_true in Hpos.
  destruct (undo_lookup c (settled_valid c Hs) Hpos) as (form & x & Hform & Hx).
  destruct (settled_form c Hs) as (v & Hv & _).
  exists x. split; [exact Hx|].
  rewrite (undo_step c form x Hpos Hform Hx).
  assert (form = mkGroup v true) by congruence. now subst form.
Qed.

Lemma redo_settled_eq c :
  settled c -> currentIndex c < len (history c) - 1 ->
  exists x, at_index (history c) (currentIndex c + 1) = Some x /\
    redo c =
    Returned (mkComponent (Some (mkGroup x true)) (history c)
                          (currentIndex c + 1) (toasts c ++ [redo_message])).
Proof.
  intros Hs Hlt. apply canRedo_true in Hlt.
  destruct (redo_lookup c (settled_valid c Hs) Hlt) as (form & x & Hform & Hx).
  destruct (settled_form c Hs) as (v & Hv & _).
  exists x. split; [exact Hx|].
  rewrite (redo_step c form x Hlt Hform Hx).
  assert (form = mkGroup v true) by congruence. now subst form.
Qed.

Lemma settled_after op c : settled c -> settled (state_of (exec op c)).
Proof.
  intro Hs. destruct (exec_settled op c Hs) as (c' & E & Hs'). now rewrite E.
Qed.

Lemma at_index_prefix_push (h : list undoRedoFormValue) v i j :
  0 <= i <= j -> j < len h ->
  at_index (firstn (Z.to_nat (j + 1)) h ++ [v]) i = at_index h i.
Proof.
  intros Hi Hj.
  fold (push (firstn (Z.to_nat (j + 1)) h) v).
  rewrite at_index_push_old by (rewrite len_firstn_cursor; lia).
  apply at_index_firstn. lia.
Qed.

(** *** [ngOnInit] *)

(** X1. [ngOnInit()] returns normally on any component, whatever its fields
    hold (also when it runs a second time): the form is rebuilt with three
    empty strings and observed, the empty value is the last snapshot and
    is under the cursor, at most one snapshot is gained, and nothing is
    notified. On the freshly constructed component the history is the one
    empty snapshot with the cursor at 0. *)
Theorem ngOnInit_any_state (c : HomeComponent) :
  exists c', ngOnInit c = Returned c' /\
    myForm c' = Some (mkGroup emptyValue true) /\
    currentIndex c' = len (history c') - 1 /\
    0 <= currentIndex c' /\
    at_index (history c') (currentIndex c') = Some emptyValue /\
    len (history c') <= len (history c) + 1 /\
    toasts c' = toasts c /\
    settled c' /\
    (c = constructed -> history c' = [emptyValue] /\ currentIndex c' = 0).
Proof.
  unfold ngOnInit. cbn zeta.
  rewrite (saveState_returns (with_myForm (Some (mkGroup emptyValue false)) c)
             (mkGroup emptyValue false) eq_refl).
  cbn [andThen myForm with_myForm value history currentIndex toasts].
  set (kept := if currentIndex c <? len (history c) - 1
               then splice (history c) (currentIndex c + 1)
               else history c).
  assert (Hkept : len kept <= len (history c)).
  { subst kept. destruct (currentIndex c <? len (history c) - 1); [|lia].
    unfold splice, len. rewrite length_firstn. lia. }
  pose proof (len_nonneg kept) as Hk.
  assert (Hlast : at_index (push kept emptyValue)
                           (len (push kept emptyValue) - 1) = Some emptyValue).
  { rewrite len_push. replace (len kept + 1 - 1) with (len kept) by lia.
    apply at_index_push_last. }
  eexists. split; [reflexivity|].
  cbn [myForm with_myForm history currentIndex toasts].
  split; [reflexivity|]. split; [reflexivity|].
  split; [rewrite len_push; lia|]. split; [exact Hlast|].
  split; [rewrite len_push; lia|]. split; [reflexivity|]. split.
  - split; cbn [myForm history currentIndex with_myForm].
    + rewrite len_push. lia.
    + exists (mkGroup emptyValue true). repeat split. exact Hlast.
  - intros ->. split; reflexivity.
Qed.

Lemma ngOnInit_any_state_witness :
  exists c', ngOnInit constructed = Returned c' /\
             history c' = [emptyValue] /\ currentIndex c' = 0.
Proof.
  destruct (ngOnInit_any_state constructed)
    as (c' & E & _ & _ & _ & _ & _ & _ & _ & Hnew).
  exists c'. split; [exact E|]. exact (Hnew eq_refl).
Defined.

(** *** Invariants of the running component *)

(** X2. In every reachable state the form is built, its [valueChanges] is
    observed by [saveState], and the value it shows is the snapshot under
    the cursor. *)
Theorem form_shows_cursor (c : HomeComponent) (Hreach : reachable c) :
  exists v,
    myForm c = Some (mkGroup v true) /\
    shown c = Some v /\
    at_index (history c) (currentIndex c) = Some v.
Proof.
  destruct (settled_form c (reachable_settled c Hreach)) as (v & Hform & Hv).
  exists v. repeat split; trivial. unfold shown. now rewrite Hform.
Qed.

Lemma form_shows_cursor_witness :
  reachable after_undo /\
  shown after_undo = Some S1 /\
  at_index (history after_undo) (currentIndex after_undo) = Some S1.
Proof.
  split; [exact after_undo_reachable|].
  destruct (form_shows_cursor after_undo after_undo_reachable)
    as (v & Hform & Hshown & Hv).
  cbn in Hform. injection Hform as <-. split; assumption.
Defined.

Lemma first_snapshot_step op c :
  settled c -> at_index (history c) 0 = Some emptyValue ->
  at_index (history (state_of (exec op c))) 0 = Some emptyValue.
Proof.
  intros Hs H0. pose proof Hs as [Hr _].
  destruct (settled_form c Hs) as (v & Hform & _).
  destruct op as [| | |k x]; cbn [exec].
  - rewrite (saveState_settled_eq c v Hr Hform). cbn [state_of history].
    rewrite at_index_prefix_push; trivial; lia.
  - destruct (Z.ltb_spec 0 (currentIndex c)) as [Hpos|Hle].
    + destruct (undo_settled_eq c Hs Hpos) as (x & _ & E). now rewrite E.
    + rewrite undo_at_start; trivial. now apply canUndo_false.
  - destruct (Z.ltb_spec (currentIndex c) (len (history c) - 1)) as [Hlt|Hge].
    + destruct (redo_settled_eq c Hs Hlt) as (x & _ & E). now rewrite E.
    + rewrite redo_at_end; trivial. apply canRedo_false. lia.
  - rewrite (edit_settled_eq k x c v Hr Hform). cbn [state_of history].
    rewrite at_index_prefix_push; trivial; lia.
Qed.

Lemma reachable_first_snapshot c :
  reachable c -> at_index (history c) 0 = Some emptyValue.
Proof.
  induction 1 as [|c op Hreach IH]; [reflexivity|].
  apply first_snapshot_step; [now apply reachable_settled | exact IH].
Qed.

(** X3. The first snapshot is never lost: in every reachable state
    [history[0]] is the empty form saved by [ngOnInit], whatever edits,
    undos and redos came after. *)
Theorem first_snapshot_kept (c : HomeComponent) (Hreach : reachable c) :
  at_index (history c) 0 = Some emptyValue.
Proof. now apply reachable_first_snapshot. Qed.

Lemma first_snapshot_kept_witness :
  reachable after_new_edit /\
  at_index (history after_new_edit) 0 = Some emptyValue.
Proof.
  assert (Hreach : reachable after_new_edit).
  { apply (reach_call _ (UserEdit CName (Some "AX"%string))).
    exact after_undo_reachable. }
  split; [exact Hreach|].
  exact (first_snapshot_kept after_new_edit Hreach).
Defined.

(** *** Repeated undo and redo *)

Lemma settled_shown c :
  settled c -> shown c = at_index (history c) (currentIndex c).
Proof.
  intro Hs. destruct (settled_form c Hs) as (v & Hform & Hv).
  unfold shown. now rewrite Hform, Hv.
Qed.

(** [n] calls of [undo()] in a row: the cursor goes down by one per call
    until it is 0, and each call that moved it notified once. *)
Lemma undos_run n : forall c,
  settled c ->
  let c' := run (repeat CallUndo n) c in
  settled c' /\ history c' = history c /\
  currentIndex c' = Z.max (currentIndex c - Z.of_nat n) 0 /\
  toasts c' =
    toasts c ++ repeat undo_message (Z.to_nat (Z.min (Z.of_nat n) (currentIndex c))).
Proof.
  induction n as [|n IH]; intros c Hs; cbn zeta.
  - pose proof Hs as [Hr _]. cbn [repeat run].
    split; [exact Hs|]. split; [reflexivity|]. split; [lia|].
    replace (Z.to_nat (Z.min (Z.of_nat 0) (currentIndex c))) with 0%nat by lia.
    cbn. now rewrite app_nil_r.
  - pose proof Hs as [Hr _]. cbn [repeat run exec].
    destruct (Z.ltb_spec 0 (currentIndex c)) as [Hpos|Hle].
    + destruct (undo_settled_eq c Hs Hpos) as (x & Hx & E).
      pose proof (settled_after CallUndo c Hs) as Hs1. cbn [exec] in Hs1.
      rewrite E in *. cbn [state_of] in *.
      destruct (IH _ Hs1) as (Hs' & Hh & Hc & Ht).
      cbn [history currentIndex toasts] in Hh, Hc, Ht.
      split; [exact Hs'|]. split; [exact Hh|]. split; [lia|].
      rewrite Ht, <- app_assoc. f_equal.
      replace (Z.to_nat (Z.min (Z.of_nat (S n)) (currentIndex c)))
        with (S (Z.to_nat (Z.min (Z.of_nat n) (currentIndex c - 1)))) by lia.
      reflexivity.
    + rewrite undo_at_start by now apply canUndo_false.
      cbn [state_of]. destruct (IH c Hs) as (Hs' & Hh & Hc & Ht).
      split; [exact Hs'|]. split; [exact Hh|]. split; [lia|].
      rewrite Ht. do 2 f_equal. lia.
Qed.

(** [n] calls of [redo()] in a row: the cursor goes up by one per call
    until it is the last index, and each call that moved it notified once. *)
Lemma redos_run n : forall c,
  settled c ->
  let c' := run (repeat CallRedo n) c in
  settled c' /\ history c' = history c /\
  currentIndex c' = Z.min (currentIndex c + Z.of_nat n) (len (history c) - 1) /\
  toasts c' =
    toasts c ++ repeat redo_message
      (Z.to_nat (Z.min (Z.of_nat n) (len (history c) - 1 - currentIndex c))).
Proof.
  induction n as [|n IH]; intros c Hs; cbn zeta.
  - pose proof Hs as [Hr _]. cbn [repeat run].
    split; [exact Hs|]. split; [reflexivity|]. split; [lia|].
    replace (Z.to_nat (Z.min (Z.of_nat 0) (len (history c) - 1 - currentIndex c)))
      with 0%nat by lia.
    cbn. now rewrite app_nil_r.
  - pose proof Hs as [Hr _]. cbn [repeat run exec].
    destruct (Z.ltb_spec (currentIndex c) (len (history c) - 1)) as [Hlt|Hge].
    + destruct (redo_settled_eq c Hs Hlt) as (x & Hx & E).
      pose proof (settled_after CallRedo c Hs) as Hs1. cbn [exec] in Hs1.
      rewrite E in *. cbn [state_of] in *.
      destruct (IH _ Hs1) as (Hs' & Hh & Hc & Ht).
      cbn [history currentIndex toasts] in Hh, Hc, Ht.
      split; [exact Hs'|]. split; [exact Hh|]. split; [lia|].
      rewrite Ht, <- app_assoc. f_equal.
      replace (Z.to_nat (Z.min (Z.of_nat (S n))
                               (len (history c) - 1 - currentIndex c)))
        with (S (Z.to_nat (Z.min (Z.of_nat n)
                                 (len (history c) - 1 - (currentIndex c + 1)))))
        by lia.
      reflexivity.
    + rewrite redo_at_end by (apply canRedo_false; lia).
      cbn [state_of]. destruct (IH c Hs) as (Hs' & Hh & Hc & Ht).
      split; [exact Hs'|]. split; [exact Hh|]. split; [lia|].
      rewrite Ht. do 2 f_equal. lia.
Qed.

(** X4. Redo then undo: in a reachable state where [canRedo()] holds,
    [redo()] followed by [undo()] brings the cursor and the form back to
    what they were, over the same history; two messages are notified. *)
Theorem redo_undo_roundtrip (c : HomeComponent)
  (Hreach : reachable c) (Hcan : canRedo c = true) :
  exists c1 c2,
    redo c = Returned c1 /\ undo c1 = Returned c2 /\
    currentIndex c1 = currentIndex c + 1 /\
    currentIndex c2 = currentIndex c /\
    myForm c2 = myForm c /\
    history c2 = history c /\
    toasts c2 = toasts c ++ [redo_message; undo_message].
Proof.
  pose proof (reachable_settled c Hreach) as Hs.
  pose proof Hs as [Hr _].
  destruct (settled_form c Hs) as (v & Hform & Hv).
  apply canRedo_true in Hcan.
  destruct (redo_settled_eq c Hs Hcan) as (x & Hx & E1).
  pose proof (settled_after CallRedo c Hs) as Hs1. cbn [exec] in Hs1.
  rewrite E1 in Hs1. cbn [state_of] in Hs1.
  destruct (undo_settled_eq _ Hs1) as (y & Hy & E2);
    [cbn [currentIndex]; lia|].
  cbn [history currentIndex toasts] in Hy, E2.
  replace (currentIndex c + 1 - 1) with (currentIndex c) in Hy, E2 by lia.
  assert (y = v) by congruence. subst y.
  eexists _, _. split; [exact E1|]. split; [exact E2|].
  cbn [history currentIndex toasts myForm].
  repeat split; trivial.
  - now rewrite Hform.
  - now rewrite <- app_assoc.
Qed.

Lemma redo_undo_roundtrip_witness :
  reachable after_undo /\ canRedo after_undo = true /\
  exists c1 c2,
    redo after_undo = Returned c1 /\ undo c1 = Returned c2 /\
    currentIndex c2 = currentIndex after_undo /\
    myForm c2 = myForm after_undo.
Proof.
  split; [exact after_undo_reachable|]. split; [reflexivity|].
  destruct (redo_undo_roundtrip after_undo after_undo_reachable eq_refl)
    as (c1 & c2 & E1 & E2 & _ & Hc & Hf & _).
  exists c1, c2. repeat split; assumption.
Defined.

(** X5. [n] undos followed by [n] redos, with [n] at most the cursor: after
    the undos the cursor is [n] lower and the form shows the snapshot
    there; after the redos the cursor, the form and the history are those
    before the first undo. *)
Theorem undos_then_redos (c : HomeComponent) (n : nat)
  (Hreach : reachable c) (Hn : Z.of_nat n <= currentIndex c) :
  let c1 := run (repeat CallUndo n) c in
  let c2 := run (repeat CallRedo n) c1 in
  currentIndex c1 = currentIndex c - Z.of_nat n /\
  shown c1 = at_index (history c) (currentIndex c - Z.of_nat n) /\
  history c1 = history c /\
  currentIndex c2 = currentIndex c /\
  myForm c2 = myForm c /\
  history c2 = history c.
Proof.
  intros c1 c2.
  pose proof (reachable_settled c Hreach) as Hs.
  pose proof Hs as [Hr _].
  destruct (undos_run n c Hs) as (Hs1 & Hh1 & Hc1 & _). fold c1 in Hs1, Hh1, Hc1.
  destruct (redos_run n c1 Hs1) as (Hs2 & Hh2 & Hc2 & _). fold c2 in Hs2, Hh2, Hc2.
  assert (Hcur1 : currentIndex c1 = currentIndex c - Z.of_nat n) by lia.
  assert (Hcur2 : currentIndex c2 = currentIndex c) by (rewrite Hh1 in Hc2; lia).
  split; [exact Hcur1|]. split.
  { rewrite (settled_shown c1 Hs1). now rewrite Hh1, Hcur1. }
  split; [exact Hh1|]. split; [exact Hcur2|]. split.
  - apply settled_same_form; trivial. congruence.
  - congruence.
Qed.

Lemma after_two_edits_reachable : reachable after_two_edits.
Proof.
  apply (run_reachable
           [UserEdit CName (Some "A"%string); UserEdit CName (Some "AB"%string)]).
  exact reach_init.
Defined.

Lemma undos_then_redos_witness :
  reachable after_two_edits /\ Z.of_nat 2 <= currentIndex after_two_edits /\
  shown (run (repeat CallUndo 2) after_two_edits) = Some S0 /\
  myForm (run (repeat CallRedo 2) (run (repeat CallUndo 2) after_two_edits))
    = myForm after_two_edits.
Proof.
  assert (Hn : Z.of_nat 2 <= currentIndex after_two_edits)
    by (change (2 <= 2); lia).
  split; [exact after_two_edits_reachable|]. split; [exact Hn|].
  destruct (undos_then_redos after_two_edits 2 after_two_edits_reachable Hn)
    as (_ & Hshown & _ & _ & Hform & _).
  split; [rewrite Hshown; reflexivity | exact Hform].
Defined.

(** X6. Undoing all the way: once [undo()] has been called at least as many
    times as the cursor counts, the cursor is 0 and the form shows the
    empty value saved by [ngOnInit]; the history is untouched and exactly
    as many messages were notified as the cursor counted, the further
    calls being silent no-ops. *)
Theorem undo_all_blank_form (c : HomeComponent) (n : nat)
  (Hreach : reachable c) (Hn : currentIndex c <= Z.of_nat n) :
  let c' := run (repeat CallUndo n) c in
  currentIndex c' = 0 /\
  shown c' = Some emptyValue /\
  canUndo c' = false /\
  history c' = history c /\
  toasts c' = toasts c ++ repeat undo_message (Z.to_nat (currentIndex c)).
Proof.
  intro c'.
  pose proof (reachable_settled c Hreach) as Hs.
  pose proof Hs as [Hr _].
  destruct (undos_run n c Hs) as (Hs1 & Hh1 & Hc1 & Ht1).
  fold c' in Hs1, Hh1, Hc1, Ht1.
  assert (H0 : currentIndex c' = 0) by lia.
  split; [exact H0|]. split.
  { rewrite (settled_shown c' Hs1), Hh1, H0.
    now apply reachable_first_snapshot. }
  split; [apply canUndo_false; lia|]. split; [exact Hh1|].
  rewrite Ht1. do 2 f_equal. lia.
Qed.

Lemma undo_all_blank_form_witness :
  reachable after_two_edits /\ currentIndex after_two_edits <= Z.of_nat 5 /\
  shown (run (repeat CallUndo 5) after_two_edits) = Some emptyValue /\
  toasts (run (repeat CallUndo 5) after_two_edits)
    = [undo_message; undo_message].
Proof.
  assert (Hn : currentIndex after_two_edits <= Z.of_nat 5)
    by (change (2 <= 5); lia).
  split; [exact after_two_edits_reachable|]. split; [exact Hn|].
  destruct (undo_all_blank_form after_two_edits 5 after_two_edits_reachable Hn)
    as (_ & Hshown & _ & _ & Ht).
  split; [exact Hshown | rewrite Ht; reflexivity].
Defined.

(** X7. Redoing all the way: once [redo()] has been called at least as many
    times as there are snapshots above the cursor, the cursor is the last
    index, the form shows the last snapshot and nothing is left to redo;
    exactly one message per snapshot that was above the cursor was
    notified. *)
Theorem redo_all_last_snapshot (c : HomeComponent) (n : nat)
  (Hreach : reachable c)
  (Hn : len (history c) - 1 - currentIndex c <= Z.of_nat n) :
  let c' := run (repeat CallRedo n) c in
  currentIndex c' = len (history c) - 1 /\
  shown c' = at_index (history c) (len (history c) - 1) /\
  canRedo c' = false /\
  history c' = history c /\
  toasts c' = toasts c ++
    repeat redo_message (Z.to_nat (len (history c) - 1 - currentIndex c)).
Proof.
  intro c'.
  pose proof (reachable_settled c Hreach) as Hs.
  pose proof Hs as [Hr _].
  destruct (redos_run n c Hs) as (Hs1 & Hh1 & Hc1 & Ht1).
  fold c' in Hs1, Hh1, Hc1, Ht1.
  assert (Hlast : currentIndex c' = len (history c) - 1) by lia.
  split; [exact Hlast|]. split.
  { now rewrite (settled_shown c' Hs1), Hh1, Hlast. }
  split; [apply canRedo_false; rewrite Hh1; lia|]. split; [exact Hh1|].
  rewrite Ht1. do 2 f_equal. lia.
Qed.

Lemma redo_all_last_snapshot_witness :
  reachable after_undo /\
  len (history after_undo) - 1 - currentIndex after_undo <= Z.of_nat 4 /\
  shown (run (repeat CallRedo 4) after_undo) = Some S2 /\
  toasts (run (repeat CallRedo 4) after_undo) = [undo_message; redo_message].
Proof.
  assert (Hn : len (history after_undo) - 1 - currentIndex after_undo
               <= Z.of_nat 4) by (change (3 - 1 - 1 <= 4); lia).
  split; [exact after_undo_reachable|]. split; [exact Hn|].
  destruct (redo_all_last_snapshot after_undo 4 after_undo_reachable Hn)
    as (_ & Hshown & _ & _ & Ht).
  split; [rewrite Hshown; reflexivity | rewrite Ht; reflexivity].
Defined.

(** *** Notifications *)

Lemma saveState_toasts c : toasts (state_of (saveState c)) = toasts c.
Proof.
  destruct (myForm c) as [form|] eqn:Hform.
  - now rewrite (saveState_returns c form Hform).
  - unfold saveState. now rewrite Hform.
Qed.

(** X8. Who notifies, and when. In a state of the data model a call of
    [undo()] hands exactly one message to the notifier when [canUndo()]
    holds and none otherwise, [redo()] likewise under [canRedo()], and
    neither [saveState()] nor an edit ever notifies; earlier messages are
    never removed. *)
Theorem notifications (c : HomeComponent) (Hvalid : valid c) (op : Call) :
  toasts (state_of (exec op c)) =
  toasts c ++
    match op with
    | CallUndo => if canUndo c then [undo_message] else []
    | CallRedo => if canRedo c then [redo_message] else []
    | CallSaveState | UserEdit _ _ => []
    end.
Proof.
  destruct op as [| | |k x]; cbn [exec].
  - now rewrite saveState_toasts, app_nil_r.
  - destruct (canUndo c) eqn:Hcan.
    + destruct (undo_lookup c Hvalid Hcan) as (form & x & Hform & Hx).
      now rewrite (undo_step c form x Hcan Hform Hx).
    + now rewrite (undo_at_start c Hcan), app_nil_r.
  - destruct (canRedo c) eqn:Hcan.
    + destruct (redo_lookup c Hvalid Hcan) as (form & x & Hform & Hx).
      now rewrite (redo_step c form x Hcan Hform Hx).
    + now rewrite (redo_at_end c Hcan), app_nil_r.
  - rewrite app_nil_r. unfold edit.
    destruct (myForm c) as [form|] eqn:Hform; [|reflexivity].
    unfold setValue. rewrite Hform.
    destruct (subscribed form); cbn [andb]; [|reflexivity].
    now rewrite saveState_toasts.
Qed.

Lemma notifications_witness :
  valid after_two_edits /\
  toasts (state_of (undo after_two_edits)) = [undo_message] /\
  toasts (state_of (redo after_two_edits)) = [] /\
  toasts (state_of (edit CEmail (Some "a@b"%string) after_two_edits)) = [].
Proof.
  split; [exact after_two_edits_valid|].
  split; [exact (notifications after_two_edits after_two_edits_valid CallUndo)|].
  split; [exact (notifications after_two_edits after_two_edits_valid CallRedo)|].
  exact (notifications after_two_edits after_two_edits_valid
           (UserEdit CEmail (Some "a@b"%string))).
Defined.

(** *** What the template can offer after each call *)

(** X9. In a reachable state: after an [undo()] that moved the cursor,
    [canRedo()] holds; after a [redo()] that moved it, [canUndo()] holds;
    after an edit or a [saveState()], [canUndo()] holds and [canRedo()]
    does not. Right after [ngOnInit] neither holds. *)
Theorem availability_after_calls (c : HomeComponent) (Hreach : reachable c) :
  (canUndo c = true -> canRedo (state_of (undo c)) = true) /\
  (canRedo c = true -> canUndo (state_of (redo c)) = true) /\
  (forall k x, canUndo (state_of (edit k x c)) = true /\
               canRedo (state_of (edit k x c)) = false) /\
  (canUndo (state_of (saveState c)) = true /\
   canRedo (state_of (saveState c)) = false) /\
  (canUndo initialized = false /\ canRedo initialized = false).
Proof.
  pose proof (reachable_settled c Hreach) as Hs.
  pose proof Hs as [Hr _].
  destruct (settled_form c Hs) as (v & Hform & _).
  assert (Hsaved : forall w,
    let kept := firstn (Z.to_nat (currentIndex c + 1)) (history c) ++ [w] in
    len kept = currentIndex c + 2).
  { intro w. cbn zeta.
    fold (push (firstn (Z.to_nat (currentIndex c + 1)) (history c)) w).
    rewrite len_push, len_firstn_cursor; lia. }
  split; [|split; [|split; [|split]]].
  - intro Hcan. apply canUndo_true in Hcan.
    destruct (undo_settled_eq c Hs Hcan) as (x & _ & E). rewrite E.
    apply canRedo_true. cbn. lia.
  - intro Hcan. apply canRedo_true in Hcan.
    destruct (redo_settled_eq c Hs Hcan) as (x & _ & E). rewrite E.
    apply canUndo_true. cbn. lia.
  - intros k x. rewrite (edit_settled_eq k x c v Hr Hform). cbn [state_of].
    split.
    + apply canUndo_true. cbn. lia.
    + apply canRedo_false. cbn [history currentIndex]. rewrite Hsaved. lia.
  - rewrite (saveState_settled_eq c v Hr Hform). cbn [state_of].
    split.
    + apply canUndo_true. cbn. lia.
    + apply canRedo_false. cbn [history currentIndex]. rewrite Hsaved. lia.
  - split; reflexivity.
Qed.

Lemma availability_after_calls_witness :
  reachable after_undo /\
  canUndo after_undo = true /\ canRedo after_undo = true /\
  canRedo (state_of (undo after_undo)) = true /\
  canUndo (state_of (redo after_undo)) = true.
Proof.
  split; [exact after_undo_reachable|].
  split; [reflexivity|]. split; [reflexivity|].
  destruct (availability_after_calls after_undo after_undo_reachable)
    as (Hu & Hr & _).
  split; [exact (Hu eq_refl) | exact (Hr eq_refl)].
Defined.

(** *** Edits *)

(** X10. Undo right after an edit: in a reachable state, an edit followed by
    [undo()] puts the cursor and the form back to what they were before
    the edit, the snapshots up to the cursor being untouched, and a
    [redo()] then shows the edited value again. *)
Theorem edit_then_undo (c : HomeComponent) (Hreach : reachable c)
  (k : Control) (x : option string) :
  exists v c1 c2 c3,
    shown c = Some v /\
    edit k x c = Returned c1 /\ undo c1 = Returned c2 /\ redo c2 = Returned c3 /\
    shown c1 = Some (patch k x v) /\
    currentIndex c2 = currentIndex c /\
    myForm c2 = myForm c /\
    (forall i, 0 <= i <= currentIndex c ->
               at_index (history c2) i = at_index (history c) i) /\
    currentIndex c3 = currentIndex c + 1 /\
    shown c3 = Some (patch k x v).
Proof.
  pose proof (reachable_settled c Hreach) as Hs.
  pose proof Hs as [Hr _].
  destruct (settled_form c Hs) as (v & Hform & Hv).
  pose proof (edit_settled_eq k x c v Hr Hform) as E1.
  pose proof (settled_after (UserEdit k x) c Hs) as Hs1. cbn [exec] in Hs1.
  rewrite E1 in Hs1. cbn [state_of] in Hs1.
  set (h1 := firstn (Z.to_nat (currentIndex c + 1)) (history c) ++ [patch k x v]) in *.
  assert (Hold : forall i, 0 <= i <= currentIndex c ->
                           at_index h1 i = at_index (history c) i).
  { intros i Hi. subst h1. apply at_index_prefix_push; lia. }
  assert (Hlen : len h1 = currentIndex c + 2).
  { subst h1.
    fold (push (firstn (Z.to_nat (currentIndex c + 1)) (history c)) (patch k x v)).
    rewrite len_push, len_firstn_cursor; lia. }
  destruct (undo_settled_eq _ Hs1) as (y & Hy & E2); [cbn; lia|].
  cbn [history currentIndex toasts] in Hy, E2.
  replace (currentIndex c + 1 - 1) with (currentIndex c) in Hy, E2 by lia.
  rewrite Hold in Hy by lia.
  assert (y = v) by congruence. subst y.
  pose proof (settled_after CallUndo _ Hs1) as Hs2. cbn [exec] in Hs2.
  rewrite E2 in Hs2. cbn [state_of] in Hs2.
  destruct (redo_settled_eq _ Hs2) as (z & Hz & E3);
    [cbn [history currentIndex]; lia|].
  cbn [history currentIndex toasts] in Hz, E3.
  assert (Hnew : at_index h1 (currentIndex c + 1) = Some (patch k x v)).
  { destruct Hs1 as [_ (form1 & F1 & _ & L1)]. cbn in F1, L1.
    injection F1 as <-. exact L1. }
  assert (z = patch k x v) by congruence. subst z.
  exists v. eexists _, _, _.
  split; [unfold shown; now rewrite Hform|].
  split; [exact E1|]. split; [exact E2|]. split; [exact E3|].
  cbn [shown myForm history currentIndex value].
  repeat split; trivial. now rewrite Hform.
Qed.

Lemma edit_then_undo_witness :
  reachable after_undo /\
  exists c1 c2,
    edit CName (Some "AX"%string) after_undo = Returned c1 /\
    undo c1 = Returned c2 /\
    currentIndex c2 = currentIndex after_undo /\
    myForm c2 = myForm after_undo.
Proof.
  split; [exact after_undo_reachable|].
  destruct (edit_then_undo after_undo after_undo_reachable
              CName (Some "AX"%string))
    as (v & c1 & c2 & c3 & _ & E1 & E2 & _ & _ & Hc & Hf & _).
  exists c1, c2. repeat split; assumption.
Defined.

Lemma last_cons_default {A : Type} (l : list A) (a d : A) :
  last (a :: l) d = last l a.
Proof.
  revert a d. induction l as [|y l IH]; intros a d; [reflexivity|].
  change (last (a :: y :: l) d) with (last (y :: l) d).
  now rewrite (IH y d), (IH y a).
Qed.

(** A run of edits from a component whose cursor is on the last snapshot
    appends one snapshot per edit. *)
Lemma edits_append es : forall c v,
  0 <= currentIndex c -> currentIndex c = len (history c) - 1 ->
  myForm c = Some (mkGroup v true) ->
  let c' := run (edits_of es) c in
  history c' = history c ++ snapshots v es /\
  currentIndex c' = currentIndex c + len es /\
  myForm c' = Some (mkGroup (last (snapshots v es) v) true) /\
  toasts c' = toasts c.
Proof.
  induction es as [|[k x] rest IH]; intros c v Hpos Hlast Hform; cbn zeta.
  - cbn [edits_of map run snapshots last]. rewrite app_nil_r.
    repeat split; trivial. unfold len. cbn. lia.
  - cbn [edits_of map run exec snapshots fst snd].
    rewrite (edit_settled_eq k x c v) by (trivial; lia).
    cbn [state_of].
    rewrite firstn_all2 by (unfold len in Hlast; lia).
    set (v' := patch k x v).
    destruct (IH (mkComponent (Some (mkGroup v' true)) (history c ++ [v'])
                              (currentIndex c + 1) (toasts c)) v')
      as (Hh & Hc & Hf & Ht).
    + cbn. lia.
    + cbn [history currentIndex]. fold (push (history c) v').
      rewrite len_push. lia.
    + reflexivity.
    + fold (edits_of rest). cbn [history currentIndex toasts] in Hh, Hc, Ht.
      split; [now rewrite Hh, <- app_assoc|].
      split; [rewrite Hc; unfold len; cbn [List.length]; lia|].
      split; [|exact Ht].
      rewrite Hf. now rewrite last_cons_default.
Qed.

(** X11. Edits alone. After [ngOnInit] and any list of edits, the history is
    the empty value followed by every value the form took, in order, one
    snapshot per edit: none is merged, dropped or capped, also when an edit
    leaves the value as it was. The cursor is the number of edits, the form
    shows the last value, and nothing was notified. *)
Theorem history_of_edits (es : list (Control * option string)) :
  let c := run (edits_of es) initialized in
  history c = emptyValue :: snapshots emptyValue es /\
  len (history c) = 1 + len es /\
  currentIndex c = len es /\
  shown c = Some (last (snapshots emptyValue es) emptyValue) /\
  toasts c = [].
Proof.
  cbn zeta.
  destruct (edits_append es initialized emptyValue) as (Hh & Hc & Hf & Ht);
    try reflexivity.
  change (history initialized) with [emptyValue] in Hh.
  change (currentIndex initialized) with 0 in Hc.
  change (toasts initialized) with (@nil string) in Ht.
  cbn [app] in Hh.
  split; [exact Hh|]. split.
  { rewrite Hh. unfold len. cbn [List.length].
    assert (Hl : forall v l, List.length (snapshots v l) = List.length l).
    { intros v l. revert v. induction l as [|e l IHl]; intro v; cbn; [reflexivity|].
      now rewrite IHl. }
    rewrite Hl. lia. }
  split; [lia|]. split; [|exact Ht].
  unfold shown. now rewrite Hf.
Qed.

(** *** [saveState] on arbitrary fields *)

(** X12. Whatever the cursor holds, [saveState()] on a built form returns with
    the cursor on the last index of a non-empty history: what it keeps is
    some prefix of the old history, followed by the form's value, so no
    redo is possible and the component is again within the data model.
    While the form is not built ([ngOnInit] has not run), [saveState()]
    and every edit throw and leave all fields as they were. *)
Theorem saveState_any_state (c : HomeComponent) :
  match myForm c with
  | None =>
      saveState c = Threw c /\ (forall k x, edit k x c = Threw c)
  | Some form =>
      exists c', saveState c = Returned c' /\
        (exists n, history c' = firstn n (history c) ++ [value form]) /\
        currentIndex c' = len (history c') - 1 /\
        0 <= currentIndex c' /\
        at_index (history c') (currentIndex c') = Some (value form) /\
        len (history c') <= len (history c) + 1 /\
        canRedo c' = false /\
        valid c' /\
        myForm c' = myForm c /\ toasts c' = toasts c
  end.
Proof.
  destruct (myForm c) as [form|] eqn:Hform.
  - eexists. split; [exact (saveState_returns c form Hform)|].
    cbn [history currentIndex myForm toasts].
    set (kept := if currentIndex c <? len (history c) - 1
                 then splice (history c) (currentIndex c + 1)
                 else history c).
    assert (Hkept : exists n, kept = firstn n (history c)).
    { subst kept. destruct (currentIndex c <? len (history c) - 1).
      - unfold splice. eauto.
      - exists (List.length (history c)). now rewrite firstn_all. }
    assert (Hlen : len kept <= len (history c)).
    { destruct Hkept as [n ->]. unfold len. rewrite length_firstn. lia. }
    pose proof (len_nonneg kept) as Hk.
    assert (Hlast : at_index (push kept (value form))
                             (len (push kept (value form)) - 1)
                    = Some (value form)).
    { rewrite len_push. replace (len kept + 1 - 1) with (len kept) by lia.
      apply at_index_push_last. }
    split; [destruct Hkept as [n ->]; now exists n|].
    split; [reflexivity|]. split; [rewrite len_push; lia|].
    split; [exact Hlast|]. split; [rewrite len_push; lia|].
    split; [apply canRedo_false; cbn [history currentIndex]; lia|].
    split; [|split; reflexivity].
    split; cbn [history currentIndex myForm].
    + rewrite len_push. lia.
    + intros _. now exists form.
  - split.
    + unfold saveState. now rewrite Hform.
    + intros k x. unfold edit. now rewrite Hform.
Qed.
